(** * node-cache-manager-mongodb: the MongoStore cache adapter

    A shallow embedding of [index.js]: the [MongoStore] constructor, its
    [compress] / [decompress] codec wrappers and the cache interface
    [get], [set], [del], [reset], [isCacheableValue].

    The adapter is written in callback style against the MongoDB driver.
    Here every operation is an action of a small monad [Io] over a [World]
    (the collection's documents, the wall clock read by [Date.now()], and a
    script of driver failures); an action also produces the list of the
    [Event]s it caused: the requests it sent to the driver and the callback
    invocations it made.  Asynchronous completions are taken in program
    order: a driver call finishes before the statement after it runs. *)

From Stdlib Require Import ZArith List String Bool Lia.
From Stdlib.Strings Require Import Byte.
Import ListNotations.
Local Open Scope string_scope.
Local Open Scope list_scope.
Local Open Scope Z_scope.
Set Warnings "-register-all".

(** ** JavaScript values *)

Module Js.

(** The values that travel through the adapter: cached payloads, errors
    and driver acknowledgements.  [VBuffer] is a Node [Buffer]; [VBinary]
    is the driver's [Binary] wrapper, an object whose [buffer] property
    is a [Buffer]. *)
Inductive Value : Type :=
| VUndefined
| VNull
| VBool (b : bool)
| VNum (n : Z)
| VStr (s : string)
| VBuffer (bytes : list byte)
| VBinary (bytes : list byte)
| VObject (fields : list (string * Value))
| VError (message : string).

(** ToBoolean, as used by [if (x)], [!x], [x || y] and [x && y]. *)
Definition truthy (v : Value) : bool :=
  match v with
  | VUndefined | VNull => false
  | VBool b => b
  | VNum n => negb (n =? 0)
  | VStr s => negb (s =? "")%string
  | VBuffer _ | VBinary _ | VObject _ | VError _ => true
  end.

(** [Buffer.isBuffer(v)]. *)
Definition isBuffer (v : Value) : bool :=
  match v with
  | VBuffer _ => true
  | _ => false
  end.

(** Property read [o[name]] on an object literal. *)
Fixpoint lookup (name : string) (fields : list (string * Value)) : Value :=
  match fields with
  | [] => VUndefined
  | (n, v) :: rest => if (n =? name)%string then v else lookup name rest
  end.

(** [v !== null] and [v !== undefined]. *)
Definition not_null (v : Value) : bool :=
  match v with
  | VNull => false
  | _ => true
  end.

Definition not_undefined (v : Value) : bool :=
  match v with
  | VUndefined => false
  | _ => true
  end.

(** An optional number: a property that holds an integer, or [None] when
    the property (or the object it is read from) is missing, which reads
    as [undefined]. *)
Definition num_truthy (a : option Z) : bool :=
  match a with
  | Some n => negb (n =? 0)
  | None => false
  end.

(** [a === n]. *)
Definition num_is (a : option Z) (n : Z) : bool :=
  match a with
  | Some m => m =? n
  | None => false
  end.

(** [a || b] with a number for [b]. *)
Definition num_or (a : option Z) (b : Z) : Z :=
  match a with
  | Some n => if num_truthy a then n else b
  | None => b
  end.

(** A function value, known by its name.  [noop] is [function () {}]. *)
Inductive Callback : Type := Fn (name : string).

Definition noop : Callback := Fn "noop".

(** [fn = fn || noop] for an optional callback argument. *)
Definition or_noop (fn : option Callback) : Callback :=
  match fn with
  | Some f => f
  | None => noop
  end.

(** An argument position that the adapter inspects with
    ['function' === typeof x]: either a function or something else. *)
Inductive Arg (A : Type) : Type :=
| IsFunction (f : Callback)
| NotFunction (a : A).

Arguments IsFunction {A} f.
Arguments NotFunction {A} a.

(** The opening lines of every method, where the callback may sit in the
    slot before its own:
    [if ('function' === typeof x) { fn = x; } fn = fn || noop]. *)
Definition callback_of {A} (x : Arg A) (fn : option Callback) : Callback :=
  or_noop match x with
          | IsFunction f => Some f
          | NotFunction _ => fn
          end.

End Js.

Import Js.

(** ** zlib *)

(** The two zlib entry points the adapter calls.  Each either fails with
    an error message or yields the output bytes; [gunzip_gzip] is the
    codec's round-trip law. *)
Class Zlib : Type := {
  gzip : list byte -> string + list byte;
  gunzip : list byte -> string + list byte;
  gunzip_gzip : forall b c, gzip b = inr c -> gunzip c = inr b
}.

(** ** Documents, the collection and the driver *)

(** The persisted document [{key, value, expiresAt, compressed?}].
    [compressed = None] is a document without that field. *)
Record Doc : Type := mkDoc {
  key : string;
  value : Value;
  expiresAt : Z;
  compressed : option bool
}.

(** A query document: [{}] or [{key : k}]. *)
Inductive Query : Type :=
| QAll
| QKey (k : string).

Definition matches (q : Query) (d : Doc) : bool :=
  match q with
  | QAll => true
  | QKey k => (key d =? k)%string
  end.

(** What the adapter sends to the driver. *)
Inductive Request : Type :=
| FindOne (q : Query)
| Update (q : Query) (d : Doc) (upsert safe : bool)
| Remove (q : Query) (safe : bool).

(** What an operation causes, in order. *)
Inductive Event : Type :=
| Req (r : Request)
| Invoke (f : Callback) (args : list Value).

(** The world an operation runs in.  [faults] scripts the driver: the
    n-th entry decides the n-th driver call from now on, [Some msg] makes
    it fail with that error (a lost connection, a rejected write, ...) and
    leave the collection as it is; past the end of the script every call
    succeeds. *)
Record World : Type := mkWorld {
  docs : list Doc;
  clock : Z;
  faults : list (option string)
}.

(** A world whose driver never fails. *)
Definition healthy (d : list Doc) (t : Z) : World := mkWorld d t [].

(** *** The [Io] monad: state passing plus a log of events *)

Definition Io (A : Type) : Type := World -> A * World * list Event.

Definition ret {A} (a : A) : Io A := fun w => (a, w, []).

Definition bind {A B} (m : Io A) (k : A -> Io B) : Io B :=
  fun w =>
    let '(a, w1, t1) := m w in
    let '(b, w2, t2) := k a w1 in
    (b, w2, t1 ++ t2).

Declare Scope io_scope.
Delimit Scope io_scope with io.
Notation "x <- m ;; k" := (bind m (fun x => k))
  (at level 61, m at next level, right associativity) : io_scope.
Notation "m ;; k" := (bind m (fun _ => k))
  (at level 61, right associativity) : io_scope.
Local Open Scope io_scope.

Definition emit (e : Event) : Io unit := fun w => (tt, w, [e]).

(** Calling a callback: [fn(args...)]. *)
Definition invoke (fn : Callback) (args : list Value) : Io unit :=
  emit (Invoke fn args).

(** [Date.now()]. *)
Definition Date_now : Io Z := fun w => (clock w, w, []).

Definition get_docs : Io (list Doc) := fun w => (docs w, w, []).

Definition put_docs (d : list Doc) : Io unit :=
  fun w => (tt, mkWorld d (clock w) (faults w), []).

(** The driver consults the script once per call. *)
Definition next_fault : Io (option string) :=
  fun w =>
    match faults w with
    | [] => (None, w, [])
    | f :: rest => (f, mkWorld (docs w) (clock w) rest, [])
    end.

Definition world_of {A} (r : A * World * list Event) : World := snd (fst r).
Definition trace_of {A} (r : A * World * list Event) : list Event := snd r.

(** *** Collection methods *)

Module Collection.

(** The first document matching the query. *)
Definition first_match (q : Query) (l : list Doc) : option Doc :=
  find (matches q) l.

(** Replace the first document matching the query by [d]. *)
Fixpoint replace_first (q : Query) (d : Doc) (l : list Doc)
  : option (list Doc) :=
  match l with
  | [] => None
  | x :: rest =>
      if matches q x then Some (d :: rest)
      else option_map (cons x) (replace_first q d rest)
  end.

(** The documents a remove leaves. *)
Definition without (q : Query) (l : list Doc) : list Doc :=
  filter (fun d => negb (matches q d)) l.

Definition count (q : Query) (l : list Doc) : Z :=
  Z.of_nat (List.length (filter (matches q) l)).

(** [collection.findOne(query, cb)]: the answer is the pair
    [(err, data)] handed to [cb]; [data = None] is [null]. *)
Definition findOne (q : Query) : Io (Value * option Doc) :=
  emit (Req (FindOne q)) ;;
  f <- next_fault ;;
  match f with
  | Some msg => ret (VError msg, None)
  | None => l <- get_docs ;; ret (VNull, first_match q l)
  end.

(** A replacement write: the first match is replaced as a whole; with no
    match and [upsert] the document is inserted.  The number is how many
    documents were written. *)
Definition write (q : Query) (d : Doc) (upsert : bool) (l : list Doc)
  : list Doc * Z :=
  match replace_first q d l with
  | Some l' => (l', 1)
  | None => if upsert then (l ++ [d], 1) else (l, 0)
  end.

(** [collection.update(query, data, {upsert, safe}, cb)] with a
    replacement document.  The answer is [(err, n)], [n] the number of
    documents written. *)
Definition update (q : Query) (d : Doc) (upsert safe : bool)
  : Io (Value * Value) :=
  emit (Req (Update q d upsert safe)) ;;
  f <- next_fault ;;
  match f with
  | Some msg => ret (VError msg, VUndefined)
  | None =>
      l <- get_docs ;;
      put_docs (fst (write q d upsert l)) ;;
      ret (VNull, VNum (snd (write q d upsert l)))
  end.

(** [collection.remove(query, {safe}, cb)]: every match is removed; the
    answer is [(err, n)], [n] the number of documents removed. *)
Definition remove (q : Query) (safe : bool) : Io (Value * Value) :=
  emit (Req (Remove q safe)) ;;
  f <- next_fault ;;
  match f with
  | Some msg => ret (VError msg, VUndefined)
  | None =>
      l <- get_docs ;;
      put_docs (without q l) ;;
      ret (VNull, VNum (count q l))
  end.

End Collection.


(** ** The store object *)

(** The option bag: the fields of [args.options] the adapter itself
    reads.  [None] is a field left out. *)
Record Options : Type := mkOptions {
  opt_collection : option string;
  opt_compression : option bool;
  opt_ttl : option Z
}.

(** The fields of [this] set by the constructor. *)
Record Store : Type := mkStore {
  MongoOptions : Options;
  name : string;
  coll : string;
  compression : bool
}.

(** [function MongoStore(args)]: what it derives from the option bag.
    [x || d] takes [d] for a missing field and for a falsy one (the empty
    collection name, [false]). *)
Definition MongoStore (options : Options) : Store :=
  {| MongoOptions := options;
     name := "mongodb";
     coll := match opt_collection options with
             | Some c => if (c =? "")%string then "cacheman" else c
             | None => "cacheman"
             end;
     compression := match opt_compression options with
                    | Some b => b
                    | None => false
                    end |}.

(** The arguments of a [collection.createIndex(keys, options, cb)] call
    with a single ascending key. *)
Record IndexSpec : Type := mkIndex {
  field : string;
  unique : bool;
  background : bool;
  expireAfterSeconds : option Z
}.

(** The index the constructor asks for once it has opened its own
    connection and created the collection. *)
Definition createIndex (store : Store) : IndexSpec :=
  {| field := "expiresAt";
     unique := true;
     background := true;
     expireAfterSeconds := opt_ttl (MongoOptions store) |}.

(** ** The adapter *)

Section Adapter.

Context {zlib : Zlib}.

(** [store.compress(data, fn)]: the answer is the pair [(err, data)]
    handed to [fn]. *)
Definition compress (data : Doc) : Value * Doc :=
  match value data with
  | VBuffer b =>
      match gzip b with
      | inr val =>
          (VNull, {| key := key data; value := VBuffer val;
                     expiresAt := expiresAt data; compressed := Some true |})
      | inl err => (VError err, data)
      end
  | _ => (VNull, data)
  end.

(** [value.buffer]: the wrapped [Buffer] of a [Binary], a field of an
    object literal, the backing [ArrayBuffer] (an object that is not a
    [Buffer]) of a [Buffer], and [undefined] on the other values. *)
Definition buffer_of (value : Value) : Value :=
  match value with
  | VBinary b => VBuffer b
  | VObject fields => lookup "buffer" fields
  | VBuffer _ => VObject []
  | _ => VUndefined
  end.

(** [zlib.gunzip(v, fn)]: a [Buffer] or a string is inflated and [fn]
    gets [(err)] or [(null, result)]; any other input is refused with a
    synchronous [TypeError], returned here as [Some]. *)
Definition zlib_gunzip (v : Value) (fn : Callback) : Io (option Value) :=
  let inflated (input : list byte) :=
    match gunzip input with
    | inl err => invoke fn [VError err] ;; ret None
    | inr out => invoke fn [VNull; VBuffer out] ;; ret None
    end in
  match v with
  | VBuffer b => inflated b
  | VStr s => inflated (list_byte_of_string s)
  | _ => ret (Some (VError "TypeError"))
  end.

(** [store.decompress(value, fn)].  Reading [.buffer] off [null] or
    [undefined] throws. *)
Definition decompress (value : Value) (fn : Callback) : Io (option Value) :=
  match value with
  | VUndefined | VNull => ret (Some (VError "TypeError"))
  | _ =>
      let v := if truthy (buffer_of value) && isBuffer (buffer_of value)
               then buffer_of value else value in
      zlib_gunzip v fn
  end.

(** [MongoStore.prototype.del]. *)
Definition del (store : Store) (key : string) (options : Arg Value)
  (fn : option Callback) : Io unit :=
  let fn := callback_of options fn in
  r <- Collection.remove (QKey key) true ;;
  invoke fn [fst r; snd r].

(** [MongoStore.prototype.get].  The [try] block catches what
    [decompress] throws; callbacks themselves are taken not to throw. *)
Definition get (store : Store) (key : string) (options : Arg Value)
  (fn : option Callback) : Io unit :=
  let fn := callback_of options fn in
  r <- Collection.findOne (QKey key) ;;
  let '(err, data) := r in
  if truthy err then invoke fn [err]
  else
    match data with
    | None => invoke fn [VNull; VNull]
    | Some data =>
        now <- Date_now ;;
        if expiresAt data <? now then
          del store key (NotFunction VUndefined) None ;;
          invoke fn [VNull; VNull]
        else
          match compressed data with
          | Some true =>
              thrown <- decompress (value data) fn ;;
              match thrown with
              | Some err => invoke fn [err]
              | None => ret tt
              end
          | _ => invoke fn [VNull; value data]
          end
    end.

(** The per-call options of [set]: [{ttl}], or [null] / [undefined]. *)
Record SetOptions : Type := mkSetOptions { ttl : option Z }.

(** The callback [_update] that [set] hands to [collection.update]. *)
Definition _update (fn : Callback) (val : Value) (err data : Value) : Io unit :=
  if truthy err then invoke fn [err]
  else if negb (truthy data) then invoke fn [VNull; VNull]
  else invoke fn [VNull; val].

(** The local function [update(data)] of [set]; [query] is [{key}] and
    the options are [{upsert : true, safe : true}]. *)
Definition update (fn : Callback) (key : string) (val : Value) (data : Doc)
  : Io unit :=
  r <- Collection.update (QKey key) data true true ;;
  _update fn val (fst r) (snd r).

(** The [ttl] variable of [set]:
    [(options && (options.ttl || options.ttl === 0)) ? options.ttl
     : store.MongoOptions.ttl]. *)
Definition set_ttl (store : Store) (options : option SetOptions) : option Z :=
  match options with
  | Some o =>
      if num_truthy (ttl o) || num_is (ttl o) 0 then ttl o
      else opt_ttl (MongoOptions store)
  | None => opt_ttl (MongoOptions store)
  end.

(** [MongoStore.prototype.set].  Building [data] cannot throw, so the
    [catch] around it is never entered. *)
Definition set (store : Store) (key : string) (val : Value)
  (options : Arg (option SetOptions)) (fn : option Callback) : Io unit :=
  let fn := callback_of options fn in
  let options := match options with IsFunction _ => None | NotFunction o => o end in
  let ttl := set_ttl store options in
  now <- Date_now ;;
  let data := {| key := key; value := val;
                 expiresAt := now + num_or ttl 60 * 1000;
                 compressed := None |} in
  if negb (compression store) then update fn key val data
  else
    let '(err, data) := compress data in
    if truthy err then invoke fn [err]
    else update fn key val data.

(** The [update] method of a collection object, as [set] calls it:
    [store.collection.update(query, data, options, cb)], with the pair
    [(err, data)] it hands to [cb] as its answer. *)
Definition Updater : Type :=
  Query -> Doc -> bool -> bool -> Io (Value * Value).

(** The local function [update(data)] of [set], with
    [store.collection] left open: whatever collection object the store
    holds, and whatever that object reports. *)
Definition update_on (collection_update : Updater) (fn : Callback)
  (key : string) (val : Value) (data : Doc) : Io unit :=
  r <- collection_update (QKey key) data true true ;;
  _update fn val (fst r) (snd r).

(** [MongoStore.prototype.set] with [store.collection] left open.  At
    [Collection.update] it is [set]. *)
Definition set_on (collection_update : Updater) (store : Store)
  (key : string) (val : Value) (options : Arg (option SetOptions))
  (fn : option Callback) : Io unit :=
  let fn := callback_of options fn in
  let options := match options with IsFunction _ => None | NotFunction o => o end in
  let ttl := set_ttl store options in
  now <- Date_now ;;
  let data := {| key := key; value := val;
                 expiresAt := now + num_or ttl 60 * 1000;
                 compressed := None |} in
  if negb (compression store) then update_on collection_update fn key val data
  else
    let '(err, data) := compress data in
    if truthy err then invoke fn [err]
    else update_on collection_update fn key val data.

(** [MongoStore.prototype.reset]. *)
Definition reset (store : Store) (key : Arg Value) (fn : option Callback)
  : Io unit :=
  let fn := callback_of key fn in
  r <- Collection.remove QAll true ;;
  invoke fn [fst r; snd r].

(** [MongoStore.prototype.isCacheableValue]. *)
Definition isCacheableValue (value : Value) : bool :=
  not_null value && not_undefined value.

(** ** Runs of the adapter *)

(** The document [set] builds at clock reading [now], before the codec
    sees it: the [data] of its [try] block. *)
Definition candidate (store : Store) (key : string) (val : Value)
  (options : Arg (option SetOptions)) (now : Z) : Doc :=
  {| key := key; value := val;
     expiresAt :=
       now + num_or (set_ttl store
                       match options with
                       | IsFunction _ => None
                       | NotFunction o => o
                       end) 60 * 1000;
     compressed := None |}.


(** [data] is the form in which [store] writes the payload [val]: the
    gzip of a [Buffer] under compression, flagged; the payload itself,
    unflagged, otherwise. *)
Definition encodes (store : Store) (val : Value) (data : Doc) : Prop :=
  (compression store = true /\
   exists b c, val = VBuffer b /\ gzip b = inr c /\
               value data = VBuffer c /\ compressed data = Some true)
  \/ ((compression store = false \/ isBuffer val = false) /\
      value data = val /\ compressed data = None).

(** The same world at another reading of the clock. *)
Definition at_time (t : Z) (w : World) : World :=
  mkWorld (docs w) t (faults w).

(** The driver answers its next call (it does not fail it). *)
Definition answers (w : World) : bool :=
  match faults w with
  | Some _ :: _ => false
  | _ => true
  end.

(** The world once the driver has taken one call. *)
Definition after_call (w : World) : World :=
  mkWorld (docs w) (clock w) (tl (faults w)).


(** One call on the cache interface, or a change of the surroundings
    between two calls (time passes, the driver's coming failures are
    others). *)
Inductive Op : Type :=
| OpGet (key : string) (options : Arg Value) (fn : option Callback)
| OpSet (key : string) (val : Value) (options : Arg (option SetOptions))
    (fn : option Callback)
| OpDel (key : string) (options : Arg Value) (fn : option Callback)
| OpReset (key : Arg Value) (fn : option Callback)
| OpEnv (t : Z) (script : list (option string)).

Definition step (store : Store) (w : World) (op : Op) : World :=
  match op with
  | OpGet key options fn => world_of (get store key options fn w)
  | OpSet key val options fn => world_of (set store key val options fn w)
  | OpDel key options fn => world_of (del store key options fn w)
  | OpReset key fn => world_of (reset store key fn w)
  | OpEnv t script => mkWorld (docs w) t script
  end.

Definition run (store : Store) (ops : list Op) (w : World) : World :=
  fold_left (step store) ops w.

(** No two documents of the collection carry the same key. *)
Definition unique_keys (l : list Doc) : Prop := NoDup (map key l).

End Adapter.

(** ** A codec for concrete runs *)

Module Framing.

(** The gzip magic number. *)
Definition magic : list byte := [x1f; x8b].

(** Frames the payload behind the magic number; refuses payloads of more
    than four bytes. *)
Definition deflate (b : list byte) : string + list byte :=
  if (List.length b <=? 4)%nat then inr (magic ++ b)
  else inl "ERR_BUFFER_TOO_LARGE".

Definition inflate (c : list byte) : string + list byte :=
  match c with
  | x1f :: x8b :: b => inr b
  | _ => inl "incorrect header check"
  end.

Lemma inflate_deflate b c : deflate b = inr c -> inflate c = inr b.
Proof.
  unfold deflate. destruct (List.length b <=? 4)%nat; [|discriminate].
  intros E. injection E as <-. reflexivity.
Qed.

Definition codec : Zlib :=
  {| gzip := deflate; gunzip := inflate; gunzip_gzip := inflate_deflate |}.

End Framing.

(** ** Sample stores and worlds *)

Module Sample.

Definition done : Callback := Fn "done".

(** A store with every option left out, and one that compresses, with a
    default time to live of two minutes. *)
Definition plain : Store := MongoStore (mkOptions None None None).

Definition zipped : Store :=
  MongoStore (mkOptions (Some "sessions") (Some true) (Some 120)).

(** An entry that expired at 4000, in a collection read at 5000. *)
Definition stale : Doc := mkDoc "sid" (VStr "alice") 4000 None.

Definition late : World := healthy [stale] 5000.

(** Payloads: an object, a blob the codec takes and one it refuses. *)
Definition profile : Value :=
  VObject [("name", VStr "alice"); ("visits", VNum 3)].

Definition blob : Value := VBuffer [x01; x02; x03].

Definition oversized : list byte := [x01; x02; x03; x04; x05].

(** A driver that fails its next call. *)
Definition failing : World := mkWorld [stale] 5000 [Some "ECONNRESET"].

(** A day in the life of the cache. *)
Definition session : list Op :=
  [OpSet "sid" profile (NotFunction None) (Some done);
   OpSet "avatar" blob (NotFunction (Some (mkSetOptions (Some 5)))) None;
   OpEnv 3000 [Some "ECONNRESET"];
   OpSet "sid" blob (IsFunction done) None;
   OpEnv 9000 [];
   OpGet "avatar" (IsFunction done) None;
   OpSet "sid" profile (NotFunction None) (Some done);
   OpDel "nobody" (NotFunction VUndefined) (Some done)].

End Sample.

(** ** Construction *)

Module Bootstrap.

(** An options object: its own properties in order, each key once. *)
Definition Bag : Type := list (string * Value).

(** [name in bag], with the value. *)
Fixpoint own (name : string) (bag : Bag) : option Value :=
  match bag with
  | [] => None
  | (n, v) :: rest => if (n =? name)%string then Some v else own name rest
  end.

(** [bag[name] = v]: the property is overwritten in place, or added at
    the end. *)
Fixpoint assign (name : string) (v : Value) (bag : Bag) : Bag :=
  match bag with
  | [] => [(name, v)]
  | (n, x) :: rest =>
      if (n =? name)%string then (n, v) :: rest
      else (n, x) :: assign name v rest
  end.

(** [a || b]. *)
Definition or_else (a b : Value) : Value := if truthy a then a else b.

(** The array [[x]]: the object of its one index and its length. *)
Definition array1 (x : Value) : Value :=
  VObject [("0", x); ("length", VNum 1)].

(** [validOptionNames]. *)
Definition validOptionNames : list string :=
  ["poolSize"; "ssl"; "sslValidate"; "sslCA"; "sslCert";
   "sslKey"; "sslPass"; "sslCRL"; "autoReconnect"; "noDelay"; "keepAlive";
   "connectTimeoutMS"; "family";
   "socketTimeoutMS"; "reconnectTries"; "reconnectInterval"; "ha";
   "haInterval";
   "replicaSet"; "secondaryAcceptableLatencyMS"; "acceptableLatencyMS";
   "connectWithNoPrimary"; "authSource"; "w"; "wtimeout"; "j";
   "forceServerObjectId";
   "serializeFunctions"; "ignoreUndefined"; "raw"; "bufferMaxEntries";
   "readPreference"; "pkFactory"; "promiseLibrary"; "readConcern";
   "maxStalenessSeconds";
   "loggerLevel"; "logger"; "promoteValues"; "promoteBuffers"; "promoteLongs";
   "domainsEnabled"; "keepAliveInitialDelay"; "checkServerIdentity";
   "validateOptions"; "appname"; "auth"].

(** lodash's [_.pick(object, names)]: the named properties the object
    has, in the order of the names. *)
Fixpoint pick (bag : Bag) (names : list string) : Bag :=
  match names with
  | [] => []
  | n :: rest =>
      match own n bag with
      | Some v => [(n, v)]
      | None => []
      end ++ pick bag rest
  end.

(** What the constructor may be given, as [args] or as [args.uri]: a
    connection string, or an object, of which the constructor reads
    [uri], [options], whether [collection] is a function, and
    [createCollectionCallback] when that is a function. *)
Inductive Conn : Type :=
| CString (s : string)
| CObject (uri : option Conn) (options : option Bag) (collection : bool)
    (createCollectionCallback : option Callback).

(** [args.uri] when truthy. *)
Definition truthy_uri (args : Conn) : option Conn :=
  match args with
  | CObject (Some (CString s)) _ _ _ =>
      if (s =? "")%string then None else Some (CString s)
  | CObject (Some u) _ _ _ => Some u
  | _ => None
  end.

(** [c.options]. *)
Definition options_of (c : Conn) : option Bag :=
  match c with
  | CObject _ o _ _ => o
  | CString _ => None
  end.

(** [var conn = (args.uri) ? args.uri : args]. *)
Definition conn_of (args : Conn) : Conn :=
  match truthy_uri args with
  | Some u => u
  | None => args
  end.

(** What [store.client] is set to before any connection is made. *)
Inductive Client : Type :=
| Handle (conn : Conn)
| Supplied (client : Value).

(** The [Client.connect] call and what its callbacks go on to ask for:
    the collection to create and the [expireAfterSeconds] of its index. *)
Record Connect : Type := mkConnect {
  target : string;
  driver_options : Bag;
  collection_name : Value;
  index_ttl : Value
}.

(** The store as the constructor leaves it. *)
Record Built : Type := mkBuilt {
  store_options : Bag;
  store_client : option Client;
  store_coll : Value;
  store_compression : Value;
  connect : option Connect
}.

Section Create.

(** [uri.format] of the mongodb-uri package. *)
Variable format : Bag -> string.

(** The descriptor branch: defaults are written into
    [store.MongoOptions], which is then formatted. *)
Definition describe (options : Bag) : Bag :=
  let o1 := assign "database"
              (or_else (lookup "database" options) (lookup "db" options))
              options in
  let o2 := assign "hosts"
              (or_else (lookup "hosts" o1)
                 (array1
                    (VObject
                       [("port", or_else (lookup "port" o1) (VNum 27017));
                        ("host",
                         or_else (lookup "host" o1) (VStr "127.0.0.1"))])))
              o1 in
  assign "hosts" (or_else (lookup "hosts" o2) (VNum 3600)) o2.

(** The [if ('object' === typeof conn)] block: [conn], [store.client] and
    [store.MongoOptions] after it; [None] when [Object.keys] throws on a
    missing [conn.options].  A [conn] of [None] is [null]. *)
Definition resolve (conn : Conn) (options : Bag)
  : option (option Conn * option Client * Bag) :=
  match conn with
  | CString _ => Some (Some conn, None, options)
  | CObject _ _ true _ => Some (Some conn, Some (Handle conn), options)
  | CObject _ None false _ => None
  | CObject _ (Some MongoOptions) false _ =>
      if (List.length MongoOptions =? 0)%nat then Some (None, None, options)
      else if truthy (lookup "client" MongoOptions) then
        Some (Some conn, Some (Supplied (lookup "client" MongoOptions)),
              options)
      else
        Some (Some (CString (format (describe options))), None,
              describe options)
  end.

(** [exports.create(args)], that is [new MongoStore(args)]: [None] when
    the constructor's own code throws, which is at [Object.keys] of a
    missing [conn.options]; [uri.format] and [Client.connect] are taken
    to return. *)
Definition create (args : Conn) : option Built :=
  let conn := conn_of args in
  let options := match options_of args with
                 | Some o => o
                 | None => []
                 end in
  match resolve conn options with
  | None => None
  | Some (conn, client, options) =>
      let conn := match conn with
                  | None => CString "mongodb://127.0.0.1:27017"
                  | Some (CString s) =>
                      if (s =? "")%string
                      then CString "mongodb://127.0.0.1:27017"
                      else CString s
                  | Some c => c
                  end in
      let coll := or_else (lookup "collection" options) (VStr "cacheman") in
      let compression :=
        or_else (lookup "compression" options) (VBool false) in
      Some {| store_options := options;
              store_client := client;
              store_coll := coll;
              store_compression := compression;
              connect :=
                match conn with
                | CString s =>
                    Some {| target := s;
                            driver_options := pick options validOptionNames;
                            collection_name := coll;
                            index_ttl := lookup "ttl" options |}
                | CObject _ _ _ _ => None
                end |}
  end.

End Create.

(** The options the adapter keeps for itself or spends on the
    connection string. *)
Definition private_names : list string :=
  ["collection"; "compression"; "ttl"; "database"; "db"; "hosts"; "host";
   "port"; "client"].

End Bootstrap.

(** ** More samples *)

Module Fixtures.
Import Bootstrap.

(** An entry flagged as compressed whose bytes are no gzip stream, live
    until 9000, beside the stale one. *)
Definition garbled : Doc :=
  mkDoc "avatar" (VBinary [x00; x01]) 9000 (Some true).

Definition shelf : World := healthy [garbled; Sample.stale] 5000.

(** The same shelf behind a driver that fails its next call. *)
Definition shaky : World :=
  mkWorld [garbled; Sample.stale] 5000 [Some "ETIMEDOUT"].

(** A formatter that only looks at the database. *)
Definition format_database (bag : Bag) : string :=
  match lookup "database" bag with
  | VStr d => "mongodb://127.0.0.1:27017/" ++ d
  | _ => ""
  end.

(** Connection fields with adapter and driver options mixed in. *)
Definition fields : Bag :=
  [("db", VStr "cache"); ("port", VNum 27018); ("ttl", VNum 120);
   ("poolSize", VNum 5); ("compression", VBool true); ("w", VNum 1)].

Definition by_fields : Conn := CObject None (Some fields) false None.

(** A collection object whose [update] takes the request and reports
    that no document was affected. *)
Definition unacknowledged : Updater :=
  fun q d upsert safe =>
    (emit (Req (Update q d upsert safe)) ;; ret (VNull, VNum 0))%io.

End Fixtures.

(** ** Facts about the collection *)

Module CollectionFacts.
Import Collection.

Lemma replace_first_keys k d l l' :
  key d = k -> replace_first (QKey k) d l = Some l' -> map key l' = map key l.
Proof.
  intros Hk. revert l'. induction l as [|x l IH]; intros l'; cbn.
  - discriminate.
  - destruct (String.eqb_spec (key x) k) as [E|E].
    + intros [= <-]. cbn. now rewrite Hk, E.
    + destruct (replace_first (QKey k) d l) as [r|]; [|discriminate].
      intros [= <-]. cbn. f_equal. now apply IH.
Qed.

Lemma replace_first_none k d l :
  replace_first (QKey k) d l = None -> ~ In k (map key l).
Proof.
  induction l as [|x l IH]; cbn; [tauto|].
  destruct (String.eqb_spec (key x) k) as [E|E]; [discriminate|].
  destruct (replace_first (QKey k) d l); [discriminate|].
  intros _ [H|H]; [contradiction | now apply IH].
Qed.

Lemma write_unique k d l :
  key d = k -> NoDup (map key l) ->
  NoDup (map key (fst (write (QKey k) d true l))).
Proof.
  intros Hk Hl. unfold write.
  destruct (replace_first (QKey k) d l) as [l'|] eqn:E; cbn.
  - now rewrite (replace_first_keys k d l l' Hk E).
  - rewrite map_app. cbn. rewrite Hk.
    assert (Hn := replace_first_none k d l E).
    clear E. induction l as [|x l IH]; cbn.
    + constructor; [intros []|constructor].
    + inversion Hl as [|? ? Hx Hl']; subst. constructor.
      * rewrite in_app_iff. cbn. intros [H|[H|[]]]; [contradiction|].
        apply Hn. now left.
      * apply IH; [assumption|]. intros H. apply Hn. now right.
Qed.

Lemma without_unique q l :
  NoDup (map key l) -> NoDup (map key (without q l)).
Proof.
  unfold without. induction l as [|x l IH]; cbn; intros H; [constructor|].
  inversion H as [|? ? Hx Hl]; subst.
  destruct (negb (matches q x)); cbn; [|now apply IH].
  constructor; [|now apply IH].
  rewrite in_map_iff. intros (y & Ey & Hy). apply filter_In in Hy.
  apply Hx. rewrite in_map_iff. exists y. tauto.
Qed.

Lemma first_match_replaced k d l l' :
  key d = k -> replace_first (QKey k) d l = Some l' ->
  first_match (QKey k) l' = Some d.
Proof.
  intros Hk. unfold first_match. revert l'.
  induction l as [|x l IH]; intros l'; cbn; [discriminate|].
  destruct (String.eqb_spec (key x) k) as [E|E].
  - intros [= <-]. cbn. rewrite Hk, String.eqb_refl. reflexivity.
  - destruct (replace_first (QKey k) d l) as [r|]; [|discriminate].
    intros [= <-]. cbn. destruct (String.eqb_spec (key x) k); [contradiction|].
    now apply IH.
Qed.

Lemma first_match_appended k d l :
  key d = k -> replace_first (QKey k) d l = None ->
  first_match (QKey k) (l ++ [d]) = Some d.
Proof.
  intros Hk. unfold first_match.
  induction l as [|x l IH]; cbn.
  - intros _. rewrite Hk, String.eqb_refl. reflexivity.
  - destruct (String.eqb_spec (key x) k) as [E|E]; [discriminate|].
    destruct (replace_first (QKey k) d l); [discriminate|]. intros _.
    now apply IH.
Qed.

(** After an upsert by key, a lookup of that key finds the document
    that was written. *)
Lemma first_match_write k d l :
  key d = k -> first_match (QKey k) (fst (write (QKey k) d true l)) = Some d.
Proof.
  intros Hk. unfold write.
  destruct (replace_first (QKey k) d l) as [l'|] eqn:E; cbn.
  - now apply first_match_replaced with (l := l).
  - now apply first_match_appended.
Qed.

Lemma write_upsert_count q d l : snd (write q d true l) = 1.
Proof. unfold write. now destruct (replace_first q d l). Qed.

Lemma first_match_without q l : first_match q (without q l) = None.
Proof.
  unfold first_match, without. induction l as [|x l IH]; cbn; [reflexivity|].
  destruct (matches q x) eqn:E; cbn; [assumption|]. now rewrite E.
Qed.

(** A query that finds nothing counts nothing and removes nothing. *)
Lemma count_unmatched q l : first_match q l = None -> count q l = 0.
Proof.
  unfold first_match, count. induction l as [|x l IH]; cbn [find filter].
  - reflexivity.
  - destruct (matches q x); [discriminate|assumption].
Qed.

Lemma without_unmatched q l : first_match q l = None -> without q l = l.
Proof.
  unfold first_match, without. induction l as [|x l IH]; cbn [find filter].
  - reflexivity.
  - destruct (matches q x); [discriminate|]. cbn [negb]. intros H.
    now rewrite IH.
Qed.

Lemma without_incl q l : incl (without q l) l.
Proof. unfold without. intros x Hx. now apply filter_In in Hx. Qed.

Lemma without_all l : without QAll l = [].
Proof. unfold without. induction l; cbn; auto. Qed.


(** With unique keys a key is held by one document or by none. *)
Lemma count_unique k l :
  NoDup (map key l) ->
  count (QKey k) l = if existsb (matches (QKey k)) l then 1 else 0.
Proof.
  unfold count. induction l as [|x l IH]; cbn; [reflexivity|].
  intros H. inversion H as [|? ? Hx Hl]; subst. specialize (IH Hl).
  destruct (String.eqb_spec (key x) k) as [E|E]; cbn [orb]; [|assumption].
  assert (Hnone : existsb (matches (QKey k)) l = false).
  { destruct (existsb (matches (QKey k)) l) eqn:Ex; [|reflexivity].
    apply existsb_exists in Ex. destruct Ex as (y & Hy & My). cbn in My.
    apply String.eqb_eq in My. exfalso. apply Hx. rewrite in_map_iff.
    exists y. split; [congruence|assumption]. }
  rewrite Hnone in IH. cbn [List.length]. lia.
Qed.

End CollectionFacts.

(** ** Facts about the adapter *)

Section AdapterFacts.

Context {zlib : Zlib}.
Import CollectionFacts.

(** Case analysis on what the driver does with its next call. *)
Ltac next_call w :=
  let d := fresh "d" in
  let t := fresh "t" in
  let msg := fresh "msg" in
  let rest := fresh "rest" in
  destruct w as [d t [|[msg|] rest]].

(** *** What one driver call does *)

Lemma findOne_run q w :
  Collection.findOne q w =
  match faults w with
  | Some msg :: _ => ((VError msg, None), after_call w, [Req (FindOne q)])
  | _ => ((VNull, Collection.first_match q (docs w)), after_call w, [Req (FindOne q)])
  end.
Proof. next_call w; reflexivity. Qed.

Lemma remove_run q safe w :
  Collection.remove q safe w =
  match faults w with
  | Some msg :: _ =>
      ((VError msg, VUndefined), after_call w, [Req (Remove q safe)])
  | _ =>
      ((VNull, VNum (Collection.count q (docs w))),
       mkWorld (Collection.without q (docs w)) (clock w) (tl (faults w)),
       [Req (Remove q safe)])
  end.
Proof. next_call w; reflexivity. Qed.

Lemma update_run q d upsert safe w :
  Collection.update q d upsert safe w =
  match faults w with
  | Some msg :: _ =>
      ((VError msg, VUndefined), after_call w, [Req (Update q d upsert safe)])
  | _ =>
      ((VNull, VNum (snd (Collection.write q d upsert (docs w)))),
       mkWorld (fst (Collection.write q d upsert (docs w))) (clock w) (tl (faults w)),
       [Req (Update q d upsert safe)])
  end.
Proof. next_call w; reflexivity. Qed.

(** *** What one method call does *)

Lemma del_run store key options fn w :
  del store key options fn w =
  match faults w with
  | Some msg :: _ =>
      (tt, after_call w,
       [Req (Remove (QKey key) true);
        Invoke (callback_of options fn) [VError msg; VUndefined]])
  | _ =>
      (tt, mkWorld (Collection.without (QKey key) (docs w)) (clock w) (tl (faults w)),
       [Req (Remove (QKey key) true);
        Invoke (callback_of options fn)
          [VNull; VNum (Collection.count (QKey key) (docs w))]])
  end.
Proof. next_call w; reflexivity. Qed.

Lemma reset_run store key fn w :
  reset store key fn w =
  match faults w with
  | Some msg :: _ =>
      (tt, after_call w,
       [Req (Remove QAll true);
        Invoke (callback_of key fn) [VError msg; VUndefined]])
  | _ =>
      (tt, mkWorld [] (clock w) (tl (faults w)),
       [Req (Remove QAll true);
        Invoke (callback_of key fn) [VNull; VNum (Collection.count QAll (docs w))]])
  end.
Proof.
  unfold reset. unfold bind at 1. rewrite remove_run.
  next_call w; cbn [faults docs clock tl]; rewrite ?without_all; reflexivity.
Qed.

(** The local [update] of [set]: the Collection.write, then the callback. *)
Lemma update_call fn key val data w :
  update fn key val data w =
  match faults w with
  | Some msg :: _ =>
      (tt, after_call w,
       [Req (Update (QKey key) data true true); Invoke fn [VError msg]])
  | _ =>
      (tt,
       mkWorld (fst (Collection.write (QKey key) data true (docs w))) (clock w)
         (tl (faults w)),
       [Req (Update (QKey key) data true true); Invoke fn [VNull; val]])
  end.
Proof.
  unfold update. unfold bind at 1. rewrite update_run.
  next_call w; cbn; try reflexivity;
    now rewrite write_upsert_count.
Qed.

Lemma set_run store key val options fn w :
  set store key val options fn w =
  let data := candidate store key val options (clock w) in
  if negb (compression store) then
    update (callback_of options fn) key val data w
  else if truthy (fst (compress data)) then
    (tt, w, [Invoke (callback_of options fn) [fst (compress data)]])
  else update (callback_of options fn) key val (snd (compress data)) w.
Proof.
  unfold set, candidate. unfold bind at 1, Date_now. cbn zeta.
  destruct (compression store); cbn [negb].
  - match goal with |- context [compress ?d] => destruct (compress d) as [e c] end.
    cbn [fst snd]. destruct (truthy e).
    + reflexivity.
    + now destruct (update _ _ _ _ w) as [[[] ?] ?].
  - now destruct (update _ _ _ _ w) as [[[] ?] ?].
Qed.

End AdapterFacts.

Section GetFacts.

Context {zlib : Zlib}.
Import CollectionFacts.

Lemma get_fault store key options fn w msg rest :
  faults w = Some msg :: rest ->
  get store key options fn w =
  (tt, after_call w,
   [Req (FindOne (QKey key)); Invoke (callback_of options fn) [VError msg]]).
Proof.
  intros F. unfold get, bind. rewrite findOne_run, F. reflexivity.
Qed.

Lemma get_absent store key options fn w :
  answers w = true ->
  Collection.first_match (QKey key) (docs w) = None ->
  get store key options fn w =
  (tt, after_call w,
   [Req (FindOne (QKey key)); Invoke (callback_of options fn) [VNull; VNull]]).
Proof.
  intros A M. unfold get, bind. rewrite findOne_run.
  destruct w as [d t [|[msg|] rest]]; try discriminate;
    cbn in M |- *; rewrite M; reflexivity.
Qed.

Lemma get_expired store key options fn w data :
  answers w = true ->
  Collection.first_match (QKey key) (docs w) = Some data ->
  expiresAt data < clock w ->
  get store key options fn w =
  let r := del store key (NotFunction VUndefined) None (after_call w) in
  (tt, world_of r,
   Req (FindOne (QKey key))
     :: trace_of r ++ [Invoke (callback_of options fn) [VNull; VNull]]).
Proof.
  intros A M E. apply Z.ltb_lt in E.
  unfold get, bind. rewrite findOne_run.
  destruct w as [d t [|[msg|] rest]]; try discriminate;
    cbn in M, E |- *; rewrite M; cbn; rewrite E; try reflexivity.
  unfold world_of, trace_of.
  now destruct (del store key (NotFunction VUndefined) None _) as [[[] w'] tr].
Qed.

Lemma get_live_plain store key options fn w data :
  answers w = true ->
  Collection.first_match (QKey key) (docs w) = Some data ->
  (expiresAt data <? clock w) = false ->
  compressed data <> Some true ->
  get store key options fn w =
  (tt, after_call w,
   [Req (FindOne (QKey key));
    Invoke (callback_of options fn) [VNull; value data]]).
Proof.
  intros A M E C.
  unfold get, bind. rewrite findOne_run.
  destruct w as [d t [|[msg|] rest]]; try discriminate;
    cbn in M, E |- *; rewrite M; cbn; rewrite E;
    destruct (compressed data) as [[|]|]; try reflexivity;
    now contradiction C.
Qed.



End GetFacts.

Section SetFacts.

Context {zlib : Zlib}.
Import CollectionFacts.

(** A call of [set] stops at a codec failure without touching the
    driver, or goes on to [update] with the encoded document. *)
Lemma set_cases store k val options fn w :
  let cb := callback_of options fn in
  let c := candidate store k val options (clock w) in
  (exists b e, compression store = true /\ val = VBuffer b /\
               gzip b = inl e /\
               set store k val options fn w = (tt, w, [Invoke cb [VError e]]))
  \/ (exists data, encodes store val data /\ key data = k /\
                   expiresAt data = expiresAt c /\
                   set store k val options fn w = update cb k val data w).
Proof.
  intros cb c. rewrite set_run. cbv zeta. fold c. fold cb.
  destruct (compression store) eqn:C; cbn [negb].
  - unfold compress. change (value c) with val.
    destruct val as [| | | | |bytes| | |];
      try solve [right; exists c; split; [right; cbn; auto | cbn; auto]].
    destruct (gzip bytes) as [e|z] eqn:G; cbn [fst snd truthy].
    + left. exists bytes, e. auto.
    + right.
      exists {| key := k; value := VBuffer z; expiresAt := expiresAt c;
                compressed := Some true |}.
      split; [left; split; [exact C|]|cbn; auto].
      exists bytes, z. cbn. auto.
  - right. exists c. split; [right; cbn; auto | cbn; auto].
Qed.

(** Under compression a payload gzip fails on ends the call at once. *)
Lemma set_codec_failure store k options fn w b e :
  compression store = true ->
  gzip b = inl e ->
  set store k (VBuffer b) options fn w =
  (tt, w, [Invoke (callback_of options fn) [VError e]]).
Proof.
  intros C G. rewrite set_run. cbv zeta. rewrite C. cbn [negb].
  unfold compress. cbn [value candidate]. rewrite G. reflexivity.
Qed.

(** The write [set] sends is the [update] of the encoded document. *)
Lemma set_sent store k val options fn w q d u s :
  In (Req (Update q d u s)) (trace_of (set store k val options fn w)) ->
  encodes store val d /\ key d = k /\
  expiresAt d = expiresAt (candidate store k val options (clock w)) /\
  set store k val options fn w = update (callback_of options fn) k val d w.
Proof.
  destruct (set_cases store k val options fn w)
    as [(b & e & _ & _ & _ & ->) | (data & En & K & X & ->)].
  - cbn. intros [H|[]]. discriminate.
  - intros H. rewrite update_call in H.
    replace d with data; [auto|].
    destruct w as [d0 t [|[msg|] rest]]; cbn in H;
      destruct H as [H|[H|[]]]; congruence.
Qed.

Lemma set_acknowledged store k val options fn w :
  In (Invoke (callback_of options fn) [VNull; val])
     (trace_of (set store k val options fn w)) ->
  exists data,
    encodes store val data /\ key data = k /\
    expiresAt data = expiresAt (candidate store k val options (clock w)) /\
    world_of (set store k val options fn w) =
    mkWorld (fst (Collection.write (QKey k) data true (docs w))) (clock w)
      (tl (faults w)).
Proof.
  destruct (set_cases store k val options fn w)
    as [(b & e & _ & _ & _ & ->) | (data & En & K & X & ->)].
  - cbn. intros [H|[]]. discriminate.
  - rewrite update_call. intros H. exists data. repeat split; try assumption.
    destruct w as [d t [|[msg|] rest]]; try reflexivity.
    cbn in H. destruct H as [H|[H|[]]]; discriminate.
Qed.

End SetFacts.

(** ** The cache interface's contract *)

Section Contract.

Context {zlib : Zlib}.
Import CollectionFacts.

(** *** Time to live *)


(** C1, at the input where the code departs from it: a per-call [ttl] of
    zero is recognised as supplied, yet the entry is written with
    [expiresAt = now + 60000] and not with [expiresAt = now], whatever
    the store's default; a lookup then finds that entry. *)
Theorem set_ttl_zero_expires_after_60s c dflt k val fn d t :
  let store := MongoStore (mkOptions c None dflt) in
  let doc := {| key := k; value := val; expiresAt := t + 60000;
                compressed := None |} in
  set store k val (NotFunction (Some {| ttl := Some 0 |})) fn (healthy d t)
  = (tt, healthy (fst (Collection.write (QKey k) doc true d)) t,
     [Req (Update (QKey k) doc true true); Invoke (or_noop fn) [VNull; val]])
  /\ Collection.first_match (QKey k)
       (fst (Collection.write (QKey k) doc true d)) = Some doc.
Proof.
  cbv zeta. split.
  - rewrite set_run. cbv zeta. cbn [compression MongoStore opt_compression negb].
    rewrite update_call. reflexivity.
  - now apply first_match_write.
Qed.

(** *** Reading *)

(** C2: when [get] finds a document whose [expiresAt] is before now, it
    sends a remove for that key whose outcome goes to [noop], and hands
    the caller [(null, null)]; if the remove is not failed by the driver
    the key is gone afterwards. *)
Theorem get_expired_removes_and_reports_absent store k options fn w data :
  answers w = true ->
  Collection.first_match (QKey k) (docs w) = Some data ->
  expiresAt data < clock w ->
  let r := get store k options fn w in
  exists err n,
    trace_of r =
      [Req (FindOne (QKey k)); Req (Remove (QKey k) true);
       Invoke noop [err; n]; Invoke (callback_of options fn) [VNull; VNull]]
    /\ (answers (after_call w) = true ->
        Collection.first_match (QKey k) (docs (world_of r)) = None).
Proof.
  intros A M E. cbv zeta. rewrite (get_expired _ _ _ _ _ data A M E).
  cbv zeta. rewrite del_run. unfold world_of, trace_of.
  destruct (faults (after_call w)) as [|[msg|] rest] eqn:F; cbn [fst snd].
  - exists VNull, (VNum (Collection.count (QKey k) (docs (after_call w)))).
    split; [reflexivity|]. intros _. apply first_match_without.
  - exists (VError msg), VUndefined. split; [reflexivity|].
    unfold answers. rewrite F. discriminate.
  - exists VNull, (VNum (Collection.count (QKey k) (docs (after_call w)))).
    split; [reflexivity|]. intros _. apply first_match_without.
Qed.

(** C7: a key without a document is no error.  [get] hands the caller
    [(null, null)]; [del] hands it [(null, 0)] and leaves the collection
    as it was. *)
Theorem absent_key_is_not_an_error store k options fn options' fn' w :
  answers w = true ->
  Collection.first_match (QKey k) (docs w) = None ->
  trace_of (get store k options fn w) =
    [Req (FindOne (QKey k)); Invoke (callback_of options fn) [VNull; VNull]]
  /\ trace_of (del store k options' fn' w) =
       [Req (Remove (QKey k) true);
        Invoke (callback_of options' fn') [VNull; VNum 0]]
  /\ docs (world_of (del store k options' fn' w)) = docs w.
Proof.
  intros A M. rewrite (get_absent _ _ _ _ _ A M). split; [reflexivity|].
  rewrite del_run.
  assert (C0 := count_unmatched _ _ M).
  assert (W := without_unmatched _ _ M).
  destruct w as [d t [|[msg|] rest]]; try discriminate;
    cbn in C0, W |- *; rewrite C0, W; auto.
Qed.


(** *** Writing *)


(** C10: under compression, when gzip fails on the payload, [set] hands
    the codec's error to the callback and to nobody else, sends the
    driver nothing, and leaves the world as it was: the collection holds
    the documents it held, no entry is inserted or replaced. *)
Theorem set_compression_failure_writes_nothing store k options fn w b e :
  compression store = true ->
  gzip b = inl e ->
  let r := set store k (VBuffer b) options fn w in
  trace_of r = [Invoke (callback_of options fn) [VError e]]
  /\ world_of r = w
  /\ docs (world_of r) = docs w
  /\ existsb (fun ev => match ev with Req _ => true | Invoke _ _ => false end)
       (trace_of r) = false.
Proof.
  intros C G r. unfold r. rewrite (set_codec_failure _ _ _ _ _ b e C G).
  repeat split.
Qed.

(** C6: whenever [set] sends its write and the driver takes it, the
    callback gets [(null, val)] with [val] the payload as passed in, also
    when the document written holds its gzip; a write the driver fails,
    and a payload gzip fails on, hand the error to the callback.  What
    the store reports is the store's: for every collection object,
    whatever its [update] answers to the write of the encoded document,
    [set] hands the callback the error if there is one, else
    [(null, null)] if the acknowledgement is falsy (no document was
    affected), else [(null, val)]; and [set] is that very function at
    the modelled collection. *)
Theorem set_delivers_original_value store k val options fn w :
  let cb := callback_of options fn in
  let r := set store k val options fn w in
  (forall q d u s,
      In (Req (Update q d u s)) (trace_of r) -> answers w = true ->
      trace_of r =
        [Req (Update (QKey k) d true true); Invoke cb [VNull; val]])
  /\ (forall data w',
        truthy data = false ->
        trace_of (_update cb val VNull data w') = [Invoke cb [VNull; VNull]])
  /\ (forall q d u s msg rest,
        In (Req (Update q d u s)) (trace_of r) ->
        faults w = Some msg :: rest ->
        trace_of r =
          [Req (Update (QKey k) d true true); Invoke cb [VError msg]]
        /\ docs (world_of r) = docs w)
  /\ (forall b e,
        compression store = true -> val = VBuffer b -> gzip b = inl e ->
        trace_of r = [Invoke cb [VError e]])
  /\ set_on Collection.update store k val options fn w = r
  /\ (forall collection_update err ack w' tr,
        let data := candidate store k val options (clock w) in
        let d := if compression store then snd (compress data) else data in
        (compression store = true -> truthy (fst (compress data)) = false) ->
        collection_update (QKey k) d true true w = ((err, ack), w', tr) ->
        set_on collection_update store k val options fn w =
        (tt, w',
         tr ++ [Invoke cb
                  (if truthy err then [err]
                   else if truthy ack then [VNull; val]
                   else [VNull; VNull])])).
Proof.
  intros cb r.
  assert (Sent : forall q d u s,
             In (Req (Update q d u s)) (trace_of r) ->
             r = update cb k val d w).
  { intros q d u s H. now apply set_sent in H. }
  split; [|split; [|split; [|split; [|split]]]].
  - intros q d u s H A. rewrite (Sent _ _ _ _ H), update_call.
    destruct w as [d0 t [|[msg|] rest]]; try discriminate; reflexivity.
  - intros data w' H. unfold _update. cbn [truthy]. rewrite H. reflexivity.
  - intros q d u s msg rest H F.
    rewrite (Sent _ _ _ _ H), update_call, F. split; reflexivity.
  - intros b e C V G. unfold r. rewrite V.
    now rewrite (set_codec_failure _ _ _ _ _ b e).
  - reflexivity.
  - intros collection_update err ack w' tr data d Hcodec Hreply.
    assert (U : update_on collection_update cb k val d w =
                (tt, w',
                 tr ++ [Invoke cb
                          (if truthy err then [err]
                           else if truthy ack then [VNull; val]
                           else [VNull; VNull])])).
    { unfold update_on, bind. rewrite Hreply. cbn [fst snd]. unfold _update.
      destruct (truthy err); [reflexivity|].
      destruct (truthy ack); reflexivity. }
    unfold set_on, bind, Date_now. fold cb.
    change {| key := k; value := val;
              expiresAt :=
                clock w +
                num_or
                  (set_ttl store
                     match options with
                     | IsFunction _ => None
                     | NotFunction o => o
                     end) 60 * 1000;
              compressed := None |} with data.
    unfold d in U. destruct (compression store); cbn [negb].
    + specialize (Hcodec eq_refl).
      destruct (compress data) as [e c]. cbn [fst snd] in Hcodec, U.
      rewrite Hcodec, U. reflexivity.
    + rewrite U. reflexivity.
Qed.

(** *** Clearing *)

(** C8: [reset] sends one remove with the empty query, whatever its
    first argument is, and the world after it does not depend on its
    arguments.  When the driver takes the remove the collection is empty,
    and a later [get] of any key hands its caller [(null, null)]. *)
Theorem reset_removes_every_document store arg fn w :
  let r := reset store arg fn w in
  hd_error (trace_of r) = Some (Req (Remove QAll true))
  /\ (forall arg' fn', world_of (reset store arg' fn' w) = world_of r)
  /\ (answers w = true ->
      docs (world_of r) = []
      /\ trace_of r =
           [Req (Remove QAll true);
            Invoke (callback_of arg fn)
              [VNull; VNum (Collection.count QAll (docs w))]]
      /\ forall k options gn t,
           answers (world_of r) = true ->
           trace_of (get store k options gn (at_time t (world_of r))) =
             [Req (FindOne (QKey k));
              Invoke (callback_of options gn) [VNull; VNull]]).
Proof.
  cbv zeta. repeat split.
  - rewrite reset_run. now destruct w as [d t [|[msg|] rest]].
  - intros arg' fn'. rewrite !reset_run.
    now destruct w as [d t [|[msg|] rest]].
  - rewrite reset_run. now destruct w as [d t [|[msg|] rest]].
  - rewrite reset_run. now destruct w as [d t [|[msg|] rest]].
  - intros k options gn t A. rewrite get_absent; [reflexivity|exact A|].
    rewrite reset_run. now destruct w as [d t0 [|[msg|] rest]].
Qed.

(** *** Cacheability *)

(** C9: [isCacheableValue] is a function from values to booleans (it
    has no access to the world); it is [false] on [null] and on
    [undefined] and on nothing else, so [true] on [0], [""] and
    [false]. *)
Theorem isCacheableValue_rejects_only_null_and_undefined :
  (forall v, isCacheableValue v = false <-> v = VNull \/ v = VUndefined)
  /\ isCacheableValue VNull = false
  /\ isCacheableValue VUndefined = false
  /\ isCacheableValue (VNum 0) = true
  /\ isCacheableValue (VStr "") = true
  /\ isCacheableValue (VBool false) = true.
Proof.
  repeat split; try reflexivity.
  - destruct v; cbn; intros; try discriminate; auto.
  - intros [-> | ->]; reflexivity.
Qed.

(** *** One entry per key *)

Lemma decompress_world value fn w : world_of (decompress value fn w) = w.
Proof.
  unfold decompress, zlib_gunzip.
  destruct value as [| | | | s |b|b|fields|]; cbn; try reflexivity.
  - now destruct (gunzip (list_byte_of_string s)).
  - now destruct (gunzip b).
  - now destruct (gunzip b).
  - destruct (lookup "buffer" fields) as [| |flag|n|s|b| | |]; cbn;
      rewrite ?andb_false_r; try reflexivity.
    now destruct (gunzip b).
Qed.

Lemma get_live_world store k options fn w data :
  answers w = true ->
  Collection.first_match (QKey k) (docs w) = Some data ->
  (expiresAt data <? clock w) = false ->
  world_of (get store k options fn w) = after_call w.
Proof.
  intros A M E. destruct (compressed data) as [[|]|] eqn:C;
    try (rewrite (get_live_plain _ _ _ _ _ data A M E);
         [reflexivity | rewrite C; discriminate]).
  unfold get, bind. rewrite findOne_run.
  assert (D := decompress_world (value data) (callback_of options fn)
                 (after_call w)).
  destruct w as [d t [|[msg|] rest]]; try discriminate;
    cbn in M, E, D |- *; rewrite M; cbn; rewrite E, C;
    destruct (decompress (value data) (callback_of options fn) _)
      as [[[err|] w2] tr]; cbn in D |- *; now subst w2.
Qed.

(** A [get] leaves the documents alone or removes those of its key. *)
Lemma get_docs_after store k options fn w :
  docs (world_of (get store k options fn w)) = docs w \/
  docs (world_of (get store k options fn w)) =
    Collection.without (QKey k) (docs w).
Proof.
  destruct (answers w) eqn:A.
  2:{ left. destruct w as [d t [|[msg|] rest]]; try discriminate.
      now rewrite (get_fault store k options fn (mkWorld d t (Some msg :: rest))
                     msg rest eq_refl). }
  destruct (Collection.first_match (QKey k) (docs w)) as [data|] eqn:M.
  2:{ left. now rewrite get_absent. }
  destruct (expiresAt data <? clock w) eqn:E.
  - apply Z.ltb_lt in E. rewrite (get_expired _ _ _ _ _ data A M E).
    cbv zeta. rewrite del_run.
    destruct (faults (after_call w)) as [|[msg|] rest]; cbn; auto.
  - left. now rewrite (get_live_world _ _ _ _ _ data A M E).
Qed.

(** Every step of a run keeps the keys unique. *)
Lemma step_unique store w op :
  unique_keys (docs w) -> unique_keys (docs (step store w op)).
Proof.
  unfold unique_keys. intros U.
  destruct op as [k o f|k val o f|k o f|a f|t script]; cbn [step].
  - destruct (get_docs_after store k o f w) as [-> | ->];
      [assumption | now apply without_unique].
  - destruct (set_cases store k val o f w)
      as [(b & e & _ & _ & _ & ->) | (data & _ & K & _ & ->)];
      [assumption|].
    rewrite update_call.
    destruct w as [d t [|[msg|] rest]]; cbn in U |- *;
      try assumption; exact (write_unique k data _ K U).
  - rewrite del_run.
    destruct w as [d t [|[msg|] rest]]; cbn in U |- *;
      try assumption; exact (without_unique (QKey k) _ U).
  - rewrite reset_run.
    destruct w as [d t [|[msg|] rest]]; cbn in U |- *;
      try assumption; constructor.
  - assumption.
Qed.

(** C4: if no two documents share a key, then after any run of [get],
    [set], [del] and [reset] calls, with time passing and driver
    failures in between, still none do: every key is held by one document
    or by none.  The index the constructor declares is a unique one, on
    [expiresAt], not on [key].  The one write [set] sends is an upsert
    that selects by its key a document of that key; [del] and [reset]
    add no document. *)
Theorem keys_stay_unique store ops w :
  unique_keys (docs w) ->
  let w' := run store ops w in
  unique_keys (docs w')
  /\ (forall k,
        Collection.count (QKey k) (docs w') =
        if existsb (matches (QKey k)) (docs w') then 1 else 0)
  /\ field (createIndex store) = "expiresAt"
  /\ unique (createIndex store) = true
  /\ (forall k val o f w0 q d u s,
        In (Req (Update q d u s)) (trace_of (set store k val o f w0)) ->
        q = QKey k /\ key d = k /\ u = true)
  /\ (forall k o f w0,
        incl (docs (world_of (del store k o f w0))) (docs w0))
  /\ (forall a f w0,
        incl (docs (world_of (reset store a f w0))) (docs w0)).
Proof.
  intros U. cbv zeta.
  assert (U' : unique_keys (docs (run store ops w))).
  { unfold run. revert w U. induction ops as [|op ops IH]; intros w U.
    - exact U.
    - cbn [fold_left]. apply IH. now apply step_unique. }
  split; [exact U'|]. split; [intros k; now apply count_unique|].
  split; [reflexivity|]. split; [reflexivity|]. split; [|split].
  - intros k val o f w0 q d u s H.
    destruct (set_sent _ _ _ _ _ _ _ _ _ _ H) as (_ & K & _ & E).
    rewrite E, update_call in H.
    destruct w0 as [d0 t [|[msg|] rest]]; cbn in H;
      destruct H as [H|[H|[]]]; try discriminate;
      inversion H; subst; auto.
  - intros k o f w0. rewrite del_run.
    destruct w0 as [d0 t [|[msg|] rest]]; cbn [world_of fst snd docs];
      try apply incl_refl; apply without_incl.
  - intros a f w0. rewrite reset_run.
    destruct w0 as [d0 t [|[msg|] rest]]; cbn [world_of fst snd docs];
      try apply incl_refl; intros x [].
Qed.

End Contract.

(** ** The contract on sample runs *)

Section Samples.

Import Framing Sample.
#[local] Existing Instance codec.

(** An entry that expired a second ago is read. *)
Lemma get_expired_removes_and_reports_absent_sample :
  exists err n,
    trace_of (get plain "sid" (NotFunction VUndefined) (Some done) late) =
      [Req (FindOne (QKey "sid")); Req (Remove (QKey "sid") true);
       Invoke noop [err; n]; Invoke done [VNull; VNull]]
    /\ (answers (after_call late) = true ->
        Collection.first_match (QKey "sid")
          (docs (world_of (get plain "sid" (NotFunction VUndefined)
                             (Some done) late))) = None).
Proof.
  apply (get_expired_removes_and_reports_absent plain "sid"
           (NotFunction VUndefined) (Some done) late stale);
    reflexivity.
Defined.

(** A key nobody wrote is read and deleted. *)
Lemma absent_key_is_not_an_error_sample :
  trace_of (get plain "nobody" (IsFunction done) None late) =
    [Req (FindOne (QKey "nobody")); Invoke done [VNull; VNull]]
  /\ trace_of (del plain "nobody" (NotFunction VNull) (Some done) late) =
       [Req (Remove (QKey "nobody") true); Invoke done [VNull; VNum 0]]
  /\ docs (world_of (del plain "nobody" (NotFunction VNull) (Some done) late))
     = docs late.
Proof.
  apply (absent_key_is_not_an_error plain "nobody" (IsFunction done) None
           (NotFunction VNull) (Some done) late);
    reflexivity.
Defined.


(** The sample session, starting from an empty collection. *)
Lemma keys_stay_unique_sample :
  let w' := run zipped session (healthy [] 1000) in
  unique_keys (docs w')
  /\ (forall k,
        Collection.count (QKey k) (docs w') =
        if existsb (matches (QKey k)) (docs w') then 1 else 0)
  /\ field (createIndex zipped) = "expiresAt"
  /\ unique (createIndex zipped) = true.
Proof.
  destruct (keys_stay_unique zipped session (healthy [] 1000))
    as (U & C & F & Q & _).
  - constructor.
  - repeat split; assumption.
Defined.


(** A write that is taken, a falsy acknowledgement, a write the driver
    fails, a payload the codec refuses, and a write to a collection that
    reports no document affected. *)
Lemma set_delivers_original_value_sample :
  trace_of (set zipped "avatar" blob (NotFunction None) (Some done) late) =
    [Req (Update (QKey "avatar")
            (mkDoc "avatar" (VBuffer [x1f; x8b; x01; x02; x03]) 125000
               (Some true)) true true);
     Invoke done [VNull; blob]]
  /\ trace_of (_update done blob VNull (VNum 0) late) =
       [Invoke done [VNull; VNull]]
  /\ trace_of (set zipped "avatar" blob (NotFunction None) (Some done)
                 failing) =
       [Req (Update (QKey "avatar")
               (mkDoc "avatar" (VBuffer [x1f; x8b; x01; x02; x03]) 125000
                  (Some true)) true true);
        Invoke done [VError "ECONNRESET"]]
  /\ trace_of (set zipped "avatar" (VBuffer oversized) (NotFunction None)
                 (Some done) late) =
       [Invoke done [VError "ERR_BUFFER_TOO_LARGE"]]
  /\ set_on Fixtures.unacknowledged zipped "avatar" blob (NotFunction None)
       (Some done) late =
     (tt, late,
      [Req (Update (QKey "avatar")
              (mkDoc "avatar" (VBuffer [x1f; x8b; x01; x02; x03]) 125000
                 (Some true)) true true);
       Invoke done [VNull; VNull]]).
Proof.
  split; [|split; [|split; [|split]]].
  - apply (set_delivers_original_value zipped "avatar" blob
             (NotFunction None) (Some done) late)
      with (q := QKey "avatar") (u := true) (s := true);
      [left|]; reflexivity.
  - apply (set_delivers_original_value zipped "avatar" blob
             (NotFunction None) (Some done) late).
    reflexivity.
  - apply (set_delivers_original_value zipped "avatar" blob
             (NotFunction None) (Some done) failing)
      with (q := QKey "avatar") (u := true) (s := true) (rest := []);
      [left|]; reflexivity.
  - apply (set_delivers_original_value zipped "avatar" (VBuffer oversized)
             (NotFunction None) (Some done) late)
      with (b := oversized); reflexivity.
  - apply (set_delivers_original_value zipped "avatar" blob
             (NotFunction None) (Some done) late)
      with (collection_update := Fixtures.unacknowledged) (err := VNull)
           (ack := VNum 0)
           (tr := [Req (Update (QKey "avatar")
                          (mkDoc "avatar"
                             (VBuffer [x1f; x8b; x01; x02; x03]) 125000
                             (Some true)) true true)]);
      reflexivity.
Defined.

(** A reset called with a key, then a read of that key. *)
Lemma reset_removes_every_document_sample :
  docs (world_of (reset plain (NotFunction (VStr "sid")) (Some done) late))
  = []
  /\ trace_of (reset plain (NotFunction (VStr "sid")) (Some done) late) =
       [Req (Remove QAll true); Invoke done [VNull; VNum 1]]
  /\ trace_of (get plain "sid" (IsFunction done) None
                 (at_time 1000
                    (world_of (reset plain (NotFunction (VStr "sid"))
                                 (Some done) late)))) =
       [Req (FindOne (QKey "sid")); Invoke done [VNull; VNull]].
Proof.
  destruct (reset_removes_every_document plain (NotFunction (VStr "sid"))
              (Some done) late) as (_ & _ & H).
  destruct (H eq_refl) as (E & T & G).
  split; [exact E|]. split; [exact T|].
  apply (G "sid" (IsFunction done) None 1000). reflexivity.
Defined.

(** A payload the codec refuses. *)
Lemma set_compression_failure_writes_nothing_sample :
  let r := set zipped "avatar" (VBuffer oversized) (NotFunction None)
             (Some done) late in
  trace_of r = [Invoke done [VError "ERR_BUFFER_TOO_LARGE"]]
  /\ world_of r = late
  /\ docs (world_of r) = docs late
  /\ existsb (fun ev => match ev with Req _ => true | Invoke _ _ => false end)
       (trace_of r) = false.
Proof.
  apply (set_compression_failure_writes_nothing zipped "avatar"
           (NotFunction None) (Some done) late oversized
           "ERR_BUFFER_TOO_LARGE");
    reflexivity.
Defined.

End Samples.

(** ** More facts about the collection *)

Module UpsertFacts.
Import Collection.

Lemma replace_first_length q d l l' :
  replace_first q d l = Some l' -> List.length l' = List.length l.
Proof.
  revert l'. induction l as [|x l IH]; intros l'; cbn [replace_first].
  - discriminate.
  - destruct (matches q x).
    + intros [= <-]. reflexivity.
    + destruct (replace_first q d l) as [r|]; [|discriminate].
      intros [= <-]. cbn. f_equal. now apply IH.
Qed.

Lemma replace_first_hit q d l :
  existsb (matches q) l = match replace_first q d l with
                          | Some _ => true
                          | None => false
                          end.
Proof.
  induction l as [|x l IH]; cbn [existsb replace_first]; [reflexivity|].
  destruct (matches q x); [reflexivity|]. cbn [orb]. rewrite IH.
  now destruct (replace_first q d l).
Qed.

(** An upsert keeps the size of the collection when its query matches
    and adds one document when it does not. *)
Lemma write_length q d l :
  List.length (fst (write q d true l)) =
  if existsb (matches q) l then List.length l else S (List.length l).
Proof.
  unfold write. rewrite (replace_first_hit q d l).
  destruct (replace_first q d l) as [l'|] eqn:E; cbn [fst].
  - now apply replace_first_length with (q := q) (d := d).
  - rewrite length_app. cbn. lia.
Qed.

Lemma first_match_other_replaced k k' d l l' :
  key d = k -> k' <> k -> replace_first (QKey k) d l = Some l' ->
  first_match (QKey k') l' = first_match (QKey k') l.
Proof.
  intros Hk Hn. unfold first_match. revert l'.
  induction l as [|x l IH]; intros l'; cbn [replace_first find matches].
  - discriminate.
  - destruct (String.eqb_spec (key x) k) as [E|E].
    + intros [= <-]. cbn [find matches]. rewrite Hk, E.
      destruct (String.eqb_spec k k'); [congruence|reflexivity].
    + destruct (replace_first (QKey k) d l) as [r|]; [|discriminate].
      intros [= <-]. cbn [find matches].
      destruct (key x =? k')%string; [reflexivity|]. now apply IH.
Qed.

(** A write selected by one key does not change what a lookup of another
    key finds. *)
Lemma first_match_other_write k k' d l :
  key d = k -> k' <> k ->
  first_match (QKey k') (fst (write (QKey k) d true l)) =
  first_match (QKey k') l.
Proof.
  intros Hk Hn. unfold write.
  destruct (replace_first (QKey k) d l) as [l'|] eqn:E; cbn [fst].
  - now apply first_match_other_replaced with (k := k) (d := d).
  - unfold first_match. clear E.
    induction l as [|x l IH]; cbn [app find matches].
    + rewrite Hk. destruct (String.eqb_spec k k'); [congruence|reflexivity].
    + destruct (key x =? k')%string; [reflexivity|assumption].
Qed.

(** Neither does a remove selected by one key. *)
Lemma first_match_other_without k k' l :
  k' <> k ->
  first_match (QKey k') (without (QKey k) l) = first_match (QKey k') l.
Proof.
  intros Hn. unfold first_match, without.
  induction l as [|x l IH]; cbn [filter find matches]; [reflexivity|].
  destruct (String.eqb_spec (key x) k) as [E|E]; cbn [negb find matches].
  - destruct (String.eqb_spec (key x) k'); [congruence|assumption].
  - destruct (key x =? k')%string; [reflexivity|assumption].
Qed.

Lemma count_without q l : count q (without q l) = 0.
Proof.
  unfold count, without. induction l as [|x l IH]; cbn [filter]; [reflexivity|].
  destruct (matches q x) eqn:E; cbn [negb filter]; [assumption|].
  now rewrite E.
Qed.

End UpsertFacts.

(** ** Beyond the contract: what else the methods do *)

Section Beyond.

Context {zlib : Zlib}.
Import CollectionFacts UpsertFacts.


(** When the driver fails the call, [get], [del] and [reset] hand its
    error to the callback as first argument, send nothing else, and the
    collection is as before. *)
Theorem driver_failure_is_reported_and_harmless
  store k go gf dop df ra rf w msg rest :
  faults w = Some msg :: rest ->
  (trace_of (get store k go gf w) =
     [Req (FindOne (QKey k)); Invoke (callback_of go gf) [VError msg]]
   /\ docs (world_of (get store k go gf w)) = docs w)
  /\ (exists result,
        trace_of (del store k dop df w) =
          [Req (Remove (QKey k) true);
           Invoke (callback_of dop df) [VError msg; result]])
  /\ docs (world_of (del store k dop df w)) = docs w
  /\ (exists result,
        trace_of (reset store ra rf w) =
          [Req (Remove QAll true);
           Invoke (callback_of ra rf) [VError msg; result]])
  /\ docs (world_of (reset store ra rf w)) = docs w.
Proof.
  intros F. rewrite (get_fault _ _ _ _ _ msg rest F), del_run, reset_run, F.
  repeat split; try (exists VUndefined); reflexivity.
Qed.

(** A live entry flagged as compressed whose bytes gunzip refuses makes
    [get] hand gunzip's error to the callback; the entry stays. *)
Theorem get_corrupt_blob_reports_error store k options fn w data c e :
  answers w = true ->
  Collection.first_match (QKey k) (docs w) = Some data ->
  clock w <= expiresAt data ->
  compressed data = Some true ->
  value data = VBuffer c \/ value data = VBinary c ->
  gunzip c = inl e ->
  trace_of (get store k options fn w) =
    [Req (FindOne (QKey k)); Invoke (callback_of options fn) [VError e]]
  /\ docs (world_of (get store k options fn w)) = docs w.
Proof.
  intros A M L C V G. apply Z.ltb_ge in L.
  assert (D : decompress (value data) (callback_of options fn) (after_call w)
              = (None, after_call w,
                 [Invoke (callback_of options fn) [VError e]])).
  { destruct V as [-> | ->]; unfold decompress; cbn; rewrite G; reflexivity. }
  unfold get, bind. rewrite findOne_run.
  destruct w as [d t [|[msg|] rest]]; try discriminate;
    cbn in M, L, D |- *; rewrite M; cbn; rewrite L, C, D; split; reflexivity.
Qed.



(** A [get] changes the collection only when it finds an entry that has
    expired: if what it finds, if anything, is live, the documents are
    the same afterwards, whatever the driver does. *)
Theorem get_changes_nothing_unless_expired store k options fn w :
  (forall data,
      Collection.first_match (QKey k) (docs w) = Some data ->
      clock w <= expiresAt data) ->
  docs (world_of (get store k options fn w)) = docs w.
Proof.
  intros L. destruct (answers w) eqn:A.
  2:{ destruct w as [d t [|[msg|] rest]]; try discriminate.
      now rewrite (get_fault store k options fn
                     (mkWorld d t (Some msg :: rest)) msg rest eq_refl). }
  destruct (Collection.first_match (QKey k) (docs w)) as [data|] eqn:M.
  - specialize (L data eq_refl). apply Z.ltb_ge in L.
    now rewrite (get_live_world _ _ _ _ _ data A M L).
  - now rewrite get_absent.
Qed.

(** What [get], [set] and [del] do for one key leaves every other key
    alone: a lookup of another key finds the same document before and
    after. *)
Theorem other_keys_are_untouched store k k' val go gf so sf dop df w :
  k' <> k ->
  Collection.first_match (QKey k') (docs (world_of (get store k go gf w)))
  = Collection.first_match (QKey k') (docs w)
  /\ Collection.first_match (QKey k')
       (docs (world_of (set store k val so sf w)))
     = Collection.first_match (QKey k') (docs w)
  /\ Collection.first_match (QKey k') (docs (world_of (del store k dop df w)))
     = Collection.first_match (QKey k') (docs w).
Proof.
  intros N. split; [|split].
  - destruct (get_docs_after store k go gf w) as [-> | ->];
      [reflexivity | now apply first_match_other_without].
  - destruct (set_cases store k val so sf w)
      as [(b & e & _ & _ & _ & ->) | (data & _ & K & _ & ->)];
      [reflexivity|].
    rewrite update_call.
    destruct w as [d t [|[msg|] rest]]; cbn [world_of fst snd docs faults];
      try reflexivity; now apply first_match_other_write.
  - rewrite del_run.
    destruct w as [d t [|[msg|] rest]]; cbn [world_of fst snd docs faults];
      try reflexivity; now apply first_match_other_without.
Qed.

(** A [del] the driver takes removes every document of the key and
    calls back with a null error and whatever result the driver hands
    back; a [get] of the key then reports absent. *)
Theorem del_then_get_reports_absent store k dop df go gf w t :
  answers w = true ->
  let r := del store k dop df w in
  (exists result,
      trace_of r =
        [Req (Remove (QKey k) true);
         Invoke (callback_of dop df) [VNull; result]])
  /\ Collection.count (QKey k) (docs (world_of r)) = 0
  /\ (answers (world_of r) = true ->
      trace_of (get store k go gf (at_time t (world_of r))) =
        [Req (FindOne (QKey k)); Invoke (callback_of go gf) [VNull; VNull]]).
Proof.
  intros A r. unfold r. rewrite del_run.
  destruct w as [d t0 [|[msg|] rest]]; try discriminate;
    cbn [faults docs clock tl world_of trace_of fst snd];
    (split; [eexists; reflexivity|]); (split; [apply count_without|]);
    intros A'; rewrite get_absent; try reflexivity; try exact A';
    apply first_match_without.
Qed.

(** A [set] that reports success replaces the key's entry when there is
    one and adds an entry when there is none: the collection keeps its
    size in the first case and grows by one in the second. *)
Theorem set_replaces_or_inserts store k val options fn w :
  In (Invoke (callback_of options fn) [VNull; val])
     (trace_of (set store k val options fn w)) ->
  List.length (docs (world_of (set store k val options fn w))) =
  if existsb (matches (QKey k)) (docs w) then List.length (docs w)
  else S (List.length (docs w)).
Proof.
  intros H. destruct (set_acknowledged _ _ _ _ _ _ H) as (data & _ & _ & _ & ->).
  cbn [docs]. apply write_length.
Qed.

(** After a [set] that reported success, a [get] of the key later than
    the entry's [expiresAt] reports absent and sends a remove for the
    key; once the driver has taken the remove the key is gone. *)
Theorem set_then_late_get_reports_absent store k val so fn go gn w t' :
  let r := set store k val so fn w in
  let w1 := at_time t' (world_of r) in
  In (Invoke (callback_of so fn) [VNull; val]) (trace_of r) ->
  answers w1 = true ->
  expiresAt (candidate store k val so (clock w)) < t' ->
  exists err n,
    trace_of (get store k go gn w1) =
      [Req (FindOne (QKey k)); Req (Remove (QKey k) true);
       Invoke noop [err; n]; Invoke (callback_of go gn) [VNull; VNull]]
    /\ (answers (after_call w1) = true ->
        Collection.first_match (QKey k)
          (docs (world_of (get store k go gn w1))) = None).
Proof.
  intros r w1 Hok A Hlate.
  destruct (set_acknowledged _ _ _ _ _ _ Hok) as (data & _ & K & X & W).
  assert (M : Collection.first_match (QKey k) (docs w1) = Some data).
  { unfold w1, r. rewrite W. cbn. now apply first_match_write. }
  assert (E : expiresAt data < clock w1) by (now rewrite X).
  rewrite (get_expired _ _ _ _ _ data A M E).
  cbv zeta. rewrite del_run. unfold world_of, trace_of.
  destruct (faults (after_call w1)) as [|[msg|] rest] eqn:F; cbn [fst snd].
  - exists VNull, (VNum (Collection.count (QKey k) (docs (after_call w1)))).
    split; [reflexivity|]. intros _. apply first_match_without.
  - exists (VError msg), VUndefined. split; [reflexivity|].
    unfold answers. rewrite F. discriminate.
  - exists VNull, (VNum (Collection.count (QKey k) (docs (after_call w1)))).
    split; [reflexivity|]. intros _. apply first_match_without.
Qed.

End Beyond.

(** ** Construction: what the constructor decides *)

Section BootstrapFacts.

Import Bootstrap.

Variable format : Bag -> string.

Lemma Some_eq {A} (x y : A) : Some x = Some y -> x = y.
Proof.
  intros E.
  exact (f_equal (fun o => match o with Some z => z | None => x end) E).
Qed.

(** Names the store a returning constructor built. *)
Ltac built := let E := fresh "E" in intros E; apply Some_eq in E; subst.

Lemma own_pick n bag names :
  own n (pick bag names) =
  if existsb (String.eqb n) names then own n bag else None.
Proof.
  induction names as [|m names IH]; cbn [pick existsb]; [reflexivity|].
  destruct (String.eqb_spec n m) as [->|N]; cbn [orb].
  - destruct (own m bag) as [v|] eqn:E; cbn [app].
    + cbn [own]. now rewrite String.eqb_refl.
    + rewrite IH. now destruct (existsb (String.eqb m) names).
  - destruct (own m bag) as [v|]; cbn [app]; [|assumption].
    cbn [own]. destruct (String.eqb_spec m n); [congruence|assumption].
Qed.

Lemma lookup_assign_same n v bag : lookup n (assign n v bag) = v.
Proof.
  induction bag as [|[m x] bag IH]; cbn [assign lookup].
  - now rewrite String.eqb_refl.
  - destruct (String.eqb_spec m n) as [->|N]; cbn [lookup].
    + now rewrite String.eqb_refl.
    + destruct (String.eqb_spec m n); [contradiction|assumption].
Qed.

Lemma lookup_assign_other n m v bag :
  n <> m -> lookup n (assign m v bag) = lookup n bag.
Proof.
  intros N. induction bag as [|[k x] bag IH]; cbn [assign lookup].
  - destruct (String.eqb_spec m n); [congruence|reflexivity].
  - destruct (String.eqb_spec k m) as [->|K]; cbn [lookup].
    + destruct (String.eqb_spec m n); [congruence|reflexivity].
    + destruct (k =? n)%string; [reflexivity|assumption].
Qed.

(** The options a connecting constructor hands the driver are picked
    from the store's. *)
Lemma create_connect args b c :
  create format args = Some b -> connect b = Some c ->
  driver_options c = pick (store_options b) validOptionNames
  /\ collection_name c = store_coll b
  /\ index_ttl c = lookup "ttl" (store_options b).
Proof.
  unfold create.
  destruct (resolve format (conn_of args) _) as [[[conn client] options]|];
    [|discriminate].
  built. cbn [connect store_options store_coll].
  destruct conn as [[s|? ? ? ?]|]; try discriminate.
  - destruct (s =? "")%string; built; auto.
  - built; auto.
Qed.

(** When the constructor opens a connection, the driver gets exactly the
    options of the store whose names are on the whitelist, with their
    values; the adapter's own options and the pieces of the connection
    string are never among them. *)
Theorem connect_options_are_whitelisted args b c :
  create format args = Some b ->
  connect b = Some c ->
  (forall n v,
      own n (driver_options c) = Some v <->
      In n validOptionNames /\ own n (store_options b) = Some v)
  /\ (forall n, In n private_names -> own n (driver_options c) = None).
Proof.
  intros Hb Hc. destruct (create_connect _ _ _ Hb Hc) as (-> & _ & _).
  split.
  - intros n v. rewrite own_pick.
    destruct (existsb (String.eqb n) validOptionNames) eqn:E.
    + apply existsb_exists in E. destruct E as (m & Hm & E).
      apply String.eqb_eq in E. subst m. tauto.
    + split; [discriminate|]. intros [Hn _].
      assert (X : existsb (String.eqb n) validOptionNames = true).
      { apply existsb_exists. exists n. split; [assumption|].
        apply String.eqb_refl. }
      congruence.
  - intros n Hn. rewrite own_pick.
    cbn in Hn. repeat (destruct Hn as [<-|Hn]; [reflexivity|]).
    destruct Hn.
Qed.

(** A constructor that returns has either opened a connection, to a
    target that is not the empty string, without a client of its own yet,
    or has adopted the client it was given and opens none: never both,
    never neither. *)
Theorem create_connects_or_adopts_a_client args b :
  create format args = Some b ->
  (exists c, connect b = Some c /\ target c <> "" /\ store_client b = None)
  \/ (connect b = None /\ exists client, store_client b = Some client).
Proof.
  unfold create.
  destruct (conn_of args) as [s|u [mo|] [|] cb]; cbn [resolve].
  - built. left. cbn [connect store_client].
    destruct (String.eqb_spec s "") as [->|N]; eexists; repeat split;
      cbn [target]; congruence.
  - built. right. cbn [connect store_client].
    split; [reflexivity|]. now eexists.
  - destruct (List.length mo =? 0)%nat.
    + built. left. cbn [connect store_client]. eexists. repeat split.
      cbn [target]. discriminate.
    + destruct (truthy (lookup "client" mo)).
      * built. right. cbn [connect store_client].
        split; [reflexivity|]. now eexists.
      * built. left. cbn [connect store_client].
        match goal with
        | |- context [(?x =? "")%string] =>
            destruct (String.eqb_spec x "") as [E|N]
        end; eexists; repeat split; cbn [target]; congruence.
  - built. right. cbn [connect store_client].
    split; [reflexivity|]. now eexists.
  - discriminate.
Qed.

(** The constructor throws when the connection it is to use, [args.uri]
    if that is truthy and else [args], is an object that is no database
    handle and has no [options]: so for [create({})], and for an object
    given as [uri] without options of its own even when [args.options]
    is there. *)
Theorem create_throws_without_options args u cb :
  conn_of args = CObject u None false cb ->
  create format args = None.
Proof.
  intros H. unfold create. rewrite H. reflexivity.
Qed.

(** Given connection fields instead of a connection string, the
    constructor fills in what is missing before it formats them:
    [database] falls back to [db], [hosts] to the one host made of
    [host], else 127.0.0.1, and [port], else 27017; the [hosts] it
    formats are never the number 3600. *)
Theorem descriptor_gets_default_host_and_database o coll_cb b :
  truthy (lookup "client" o) = false ->
  (0 < List.length o)%nat ->
  create format (CObject None (Some o) false coll_cb) = Some b ->
  lookup "database" (store_options b) =
    or_else (lookup "database" o) (lookup "db" o)
  /\ lookup "hosts" (store_options b) =
       or_else (lookup "hosts" o)
         (array1
            (VObject
               [("port", or_else (lookup "port" o) (VNum 27017));
                ("host", or_else (lookup "host" o) (VStr "127.0.0.1"))]))
  /\ truthy (lookup "hosts" (store_options b)) = true
  /\ exists c,
       connect b = Some c
       /\ (target c = format (store_options b)
           \/ (format (store_options b) = ""
               /\ target c = "mongodb://127.0.0.1:27017")).
Proof.
  intros C L. unfold create. cbn [conn_of truthy_uri options_of resolve].
  destruct (List.length o =? 0)%nat eqn:E;
    [apply Nat.eqb_eq in E; lia|].
  rewrite C. built. cbn [store_options connect].
  set (hosts :=
         or_else (lookup "hosts" o)
           (array1
              (VObject
                 [("port", or_else (lookup "port" o) (VNum 27017));
                  ("host", or_else (lookup "host" o) (VStr "127.0.0.1"))]))).
  assert (T : truthy hosts = true).
  { unfold hosts, or_else. now destruct (truthy (lookup "hosts" o)) eqn:H. }
  assert (H2 : lookup "hosts" (describe o) = hosts).
  { unfold describe. rewrite !lookup_assign_same.
    rewrite !(lookup_assign_other _ "database") by discriminate.
    fold hosts. unfold or_else at 1. now rewrite T. }
  split; [|split; [exact H2|split; [now rewrite H2|]]].
  - unfold describe. rewrite !(lookup_assign_other "database") by discriminate.
    apply lookup_assign_same.
  - destruct (String.eqb_spec (format (describe o)) "") as [Z|N];
      eexists; split; try reflexivity; cbn [target]; auto.
Qed.

(** An object given as [args.uri] only chooses the branch: when it has
    options of its own without a client, the connection is formatted from
    [args.options], so two such objects build the same store. *)
Theorem uri_object_options_do_not_reach_the_connection
  o coll cb u1 o1 cb1 u2 o2 cb2 :
  (0 < List.length o1)%nat -> (0 < List.length o2)%nat ->
  truthy (lookup "client" o1) = false ->
  truthy (lookup "client" o2) = false ->
  create format (CObject (Some (CObject u1 (Some o1) false cb1)) o coll cb)
  = create format (CObject (Some (CObject u2 (Some o2) false cb2)) o coll cb).
Proof.
  intros L1 L2 C1 C2. unfold create.
  cbn [conn_of truthy_uri options_of resolve].
  destruct (List.length o1 =? 0)%nat eqn:E1;
    [apply Nat.eqb_eq in E1; lia|].
  destruct (List.length o2 =? 0)%nat eqn:E2;
    [apply Nat.eqb_eq in E2; lia|].
  now rewrite C1, C2.
Qed.

End BootstrapFacts.

(** ** The further facts on sample runs *)

Section MoreSamples.

Import Framing Sample Bootstrap Fixtures.
#[local] Existing Instance codec.


(** Every method against a driver that times out. *)
Lemma driver_failure_is_reported_and_harmless_sample :
  (trace_of (get plain "sid" (IsFunction done) None shaky) =
     [Req (FindOne (QKey "sid")); Invoke done [VError "ETIMEDOUT"]]
   /\ docs (world_of (get plain "sid" (IsFunction done) None shaky))
      = docs shaky)
  /\ (exists result,
        trace_of (del plain "sid" (IsFunction done) None shaky) =
          [Req (Remove (QKey "sid") true);
           Invoke done [VError "ETIMEDOUT"; result]])
  /\ docs (world_of (del plain "sid" (IsFunction done) None shaky))
     = docs shaky
  /\ (exists result,
        trace_of (reset plain (IsFunction done) None shaky) =
          [Req (Remove QAll true); Invoke done [VError "ETIMEDOUT"; result]])
  /\ docs (world_of (reset plain (IsFunction done) None shaky)) = docs shaky.
Proof.
  apply (driver_failure_is_reported_and_harmless plain "sid"
           (IsFunction done) None (IsFunction done) None
           (IsFunction done) None shaky "ETIMEDOUT" []).
  reflexivity.
Defined.

(** The garbled entry is read. *)
Lemma get_corrupt_blob_reports_error_sample :
  trace_of (get zipped "avatar" (IsFunction done) None shelf) =
    [Req (FindOne (QKey "avatar"));
     Invoke done [VError "incorrect header check"]]
  /\ docs (world_of (get zipped "avatar" (IsFunction done) None shelf))
     = docs shelf.
Proof.
  apply (get_corrupt_blob_reports_error zipped "avatar" (IsFunction done) None
           shelf garbled [x00; x01] "incorrect header check");
    try reflexivity.
  - discriminate.
  - right. reflexivity.
Defined.


(** A read of the live entry on the shelf. *)
Lemma get_changes_nothing_unless_expired_sample :
  docs (world_of (get zipped "avatar" (IsFunction done) None shelf))
  = docs shelf.
Proof.
  apply (get_changes_nothing_unless_expired zipped "avatar"
           (IsFunction done) None shelf).
  intros data E. injection E as <-. discriminate.
Defined.

(** The stale entry is read, overwritten and deleted; the lookup is of
    the avatar. *)
Lemma other_keys_are_untouched_sample :
  Collection.first_match (QKey "avatar")
    (docs (world_of (get plain "sid" (IsFunction done) None shelf)))
  = Collection.first_match (QKey "avatar") (docs shelf)
  /\ Collection.first_match (QKey "avatar")
       (docs (world_of (set plain "sid" profile (IsFunction done) None shelf)))
     = Collection.first_match (QKey "avatar") (docs shelf)
  /\ Collection.first_match (QKey "avatar")
       (docs (world_of (del plain "sid" (IsFunction done) None shelf)))
     = Collection.first_match (QKey "avatar") (docs shelf).
Proof.
  apply (other_keys_are_untouched plain "sid" "avatar" profile
           (IsFunction done) None (IsFunction done) None
           (IsFunction done) None shelf).
  discriminate.
Defined.

(** The avatar is deleted and looked up a second later. *)
Lemma del_then_get_reports_absent_sample :
  let r := del plain "avatar" (IsFunction done) None shelf in
  (exists result,
      trace_of r =
        [Req (Remove (QKey "avatar") true); Invoke done [VNull; result]])
  /\ Collection.count (QKey "avatar") (docs (world_of r)) = 0
  /\ (answers (world_of r) = true ->
      trace_of (get plain "avatar" (IsFunction done) None
                  (at_time 6000 (world_of r))) =
        [Req (FindOne (QKey "avatar")); Invoke done [VNull; VNull]]).
Proof.
  apply (del_then_get_reports_absent plain "avatar" (IsFunction done) None
           (IsFunction done) None shelf 6000).
  reflexivity.
Defined.

(** The stale entry is overwritten: the shelf keeps its two documents. *)
Lemma set_replaces_or_inserts_sample :
  List.length
    (docs (world_of (set plain "sid" profile (IsFunction done) None shelf)))
  = if existsb (matches (QKey "sid")) (docs shelf)
    then List.length (docs shelf) else S (List.length (docs shelf)).
Proof.
  apply (set_replaces_or_inserts plain "sid" profile (IsFunction done) None
           shelf).
  right. left. reflexivity.
Defined.

(** A profile written at 5000 with the default minute to live is read
    at 65001. *)
Lemma set_then_late_get_reports_absent_sample :
  let w1 := at_time 65001
              (world_of (set plain "sid" profile (IsFunction done) None
                           shelf)) in
  exists err n,
    trace_of (get plain "sid" (IsFunction done) None w1) =
      [Req (FindOne (QKey "sid")); Req (Remove (QKey "sid") true);
       Invoke noop [err; n]; Invoke done [VNull; VNull]]
    /\ (answers (after_call w1) = true ->
        Collection.first_match (QKey "sid")
          (docs (world_of (get plain "sid" (IsFunction done) None w1)))
        = None).
Proof.
  apply (set_then_late_get_reports_absent plain "sid" profile
           (IsFunction done) None (IsFunction done) None shelf 65001).
  - right. left. reflexivity.
  - reflexivity.
  - reflexivity.
Defined.

(** A store built from connection fields: what the driver is handed. *)
Lemma connect_options_are_whitelisted_sample :
  exists b c,
    create format_database by_fields = Some b
    /\ connect b = Some c
    /\ driver_options c = [("poolSize", VNum 5); ("w", VNum 1)]
    /\ (forall n v,
          own n (driver_options c) = Some v <->
          In n validOptionNames /\ own n (store_options b) = Some v)
    /\ (forall n, In n private_names -> own n (driver_options c) = None).
Proof.
  destruct (create format_database by_fields) as [b|] eqn:B;
    [|discriminate].
  destruct (connect b) as [c|] eqn:C;
    [|apply Some_eq in B; subst b; discriminate].
  exists b, c. split; [reflexivity|]. split; [exact C|].
  split;
    [apply Some_eq in B; subst b; apply Some_eq in C; subst c; reflexivity|].
  apply (connect_options_are_whitelisted format_database by_fields b c B C).
Defined.

Lemma create_connects_or_adopts_a_client_sample :
  exists b,
    create format_database by_fields = Some b
    /\ ((exists c,
           connect b = Some c /\ target c <> "" /\ store_client b = None)
        \/ (connect b = None /\ exists client, store_client b = Some client)).
Proof.
  destruct (create format_database by_fields) as [b|] eqn:B;
    [|discriminate].
  exists b. split; [reflexivity|].
  apply (create_connects_or_adopts_a_client format_database by_fields b B).
Defined.

Lemma descriptor_gets_default_host_and_database_sample :
  exists b,
    create format_database by_fields = Some b
    /\ lookup "database" (store_options b) = VStr "cache"
    /\ lookup "hosts" (store_options b) =
         array1 (VObject [("port", VNum 27018); ("host", VStr "127.0.0.1")])
    /\ exists c,
         connect b = Some c
         /\ target c = "mongodb://127.0.0.1:27017/cache".
Proof.
  destruct (create format_database by_fields) as [b|] eqn:B;
    [|discriminate].
  exists b. split; [reflexivity|].
  destruct (descriptor_gets_default_host_and_database format_database
              fields None b eq_refl) as (D & H & _ & c & C & T).
  - repeat constructor.
  - exact B.
  - split; [exact D|]. split; [exact H|]. exists c. split; [exact C|].
    apply Some_eq in B. subst b. apply Some_eq in C. subst c. reflexivity.
Defined.

(** [create({})], and a [uri] object without options beside the
    connection fields. *)
Lemma create_throws_without_options_sample :
  create format_database (CObject None None false None) = None
  /\ create format_database
       (CObject (Some (CObject None None false None)) (Some fields) false
          None) = None.
Proof.
  split.
  - apply (create_throws_without_options format_database
             (CObject None None false None) None None).
    reflexivity.
  - apply (create_throws_without_options format_database
             (CObject (Some (CObject None None false None)) (Some fields)
                false None) None None).
    reflexivity.
Defined.

Lemma uri_object_options_do_not_reach_the_connection_sample :
  create format_database
    (CObject (Some (CObject None (Some [("host", VStr "db1")]) false None))
       (Some fields) false None)
  = create format_database
      (CObject (Some (CObject None (Some [("host", VStr "db2")]) false None))
         (Some fields) false None).
Proof.
  apply (uri_object_options_do_not_reach_the_connection format_database
           (Some fields) false None None [("host", VStr "db1")] None
           None [("host", VStr "db2")] None);
    try reflexivity; repeat constructor.
Defined.

End MoreSamples.
